(** * ID3 split criterion: entropy, average information entropy, best attribute

    A shallow embedding of [homework6_id3_decision_tree/utils.h] and of the
    [Entries] interface declared in [homework6_id3_decision_tree/entries.h].

    - C++ [double] is IEEE 754 binary64: Rocq's primitive [float], whose
      operations are specified against [SpecFloat] by [FloatAxioms].
    - C++ [int] ([Count], attribute value counts) is [Z]; the code only
      compares such values and converts them to [double].
    - A [throw] is the [Throw] constructor of [completion]; the exception
      carries what its message is built from.
    - [log2] comes from <cmath>, not from the repository: every definition
      takes it as a parameter, and the theorems state what they need of it. *)

From Stdlib Require Import ZArith List Floats Lia.
From stdpp Require Import base list strings gmap.
Import ListNotations.

Set Warnings "-inexact-float".
Local Open Scope float_scope.

(** ** Exceptions and completions *)

(** The two exception classes of utils.h.  [InvalidNumberOfEntriesException]
    is built from the offending count and the total, which its message
    prints. *)
Inductive exception : Type :=
  | InvalidSumOfProbabilitiesException
  | InvalidNumberOfEntriesException (count totalNumberOfEntries : Z).

(** How a call ends: it returns a value, or an exception leaves it. *)
Inductive completion (A : Type) : Type :=
  | Return (a : A)
  | Throw (e : exception).
Arguments Return {A} a.
Arguments Throw {A} e.

Definition bind {A B : Type} (c : completion A) (k : A -> completion B) : completion B :=
  match c with
  | Return a => k a
  | Throw e => Throw e
  end.

Notation "'let!' x ':=' c 'in' k" := (bind c (fun x => k))
  (at level 10, x name, c at level 100, k at level 200).

(** Run [f] over a list, left to right; the first exception ends the run. *)
Fixpoint forEach {A B : Type} (f : A -> completion B) (l : list A) : completion (list B) :=
  match l with
  | [] => Return []
  | a :: l' => let! b := f a in let! bs := forEach f l' in Return (b :: bs)
  end.

Definition returns {A : Type} (c : completion A) : bool :=
  match c with Return _ => true | Throw _ => false end.

Definition throwsInvalidSumOfProbabilities {A : Type} (c : completion A) : bool :=
  match c with Throw InvalidSumOfProbabilitiesException => true | _ => false end.

Definition throwsInvalidNumberOfEntries {A : Type} (c : completion A) : bool :=
  match c with Throw (InvalidNumberOfEntriesException _ _) => true | _ => false end.

(** ** Doubles *)

Definition Count := Z.
Definition Entropy := float.

(** [static_cast<double>(n)] of an [int], and the implicit conversion of an
    [int] operand of a [double] operation: the nearest double, which is [n]
    itself for every 32-bit [n]. *)
Definition int_to_double (n : Z) : float :=
  SF2Prim (binary_normalize prec emax n 0%Z false).

(** [x] is a NaN: the only double that differs from itself. *)
Definition isnan (x : float) : bool := negb (x =? x).

(** Two doubles denote the same value: they compare equal with C++ [==]
    (so [+0] and [-0] agree), or both are NaN. *)
Definition same_value (x y : float) : Prop :=
  x = y \/ (x =? y) = true.

(** ** utils.h *)

(** The first loop of [calculateEntropy]: [sumOfProbabilites] starts at 0
    and every probability is added in order. *)
Definition sumOfProbabilites (probabilities : list float) : float :=
  fold_left (fun sum probability => sum + probability) probabilities 0.

(** The second loop of [calculateEntropy]:
    [entropy -= probability * log2(probability)], from 0. *)
Definition entropyLoop (log2 : float -> float) (probabilities : list float) (entropy : float) : float :=
  fold_left (fun entropy probability => entropy - probability * log2 probability)
            probabilities entropy.

Definition calculateEntropy (log2 : float -> float) (probabilities : list float) : completion Entropy :=
  if negb (sumOfProbabilites probabilities =? 1)
  then Throw InvalidSumOfProbabilitiesException
  else Return (entropyLoop log2 probabilities 0).

(** The loop of [calculateAverageInformationEntropy] with the accumulator
    [averageInformationEntropy] made explicit. *)
Fixpoint averageLoop (totalNumberOfEntries : Z) (pairs : list (Count * Entropy))
    (averageInformationEntropy : float) : completion Entropy :=
  match pairs with
  | [] => Return averageInformationEntropy
  | (count, entropy) :: rest =>
      if (count >? totalNumberOfEntries)%Z
      then Throw (InvalidNumberOfEntriesException count totalNumberOfEntries)
      else averageLoop totalNumberOfEntries rest
             (averageInformationEntropy
              + (int_to_double count / int_to_double totalNumberOfEntries) * entropy)
  end.

Definition calculateAverageInformationEntropy (totalNumberOfEntries : Z)
    (attributeAndItsEntropyPair : list (Count * Entropy)) : completion Entropy :=
  averageLoop totalNumberOfEntries attributeAndItsEntropyPair 0.

(** The same loop, counting the floating-point divisions it performs next
    to its completion. *)
Fixpoint averageLoopDivisions (totalNumberOfEntries : Z) (pairs : list (Count * Entropy))
    (averageInformationEntropy : float) (divisions : nat) : completion Entropy * nat :=
  match pairs with
  | [] => (Return averageInformationEntropy, divisions)
  | (count, entropy) :: rest =>
      if (count >? totalNumberOfEntries)%Z
      then (Throw (InvalidNumberOfEntriesException count totalNumberOfEntries), divisions)
      else averageLoopDivisions totalNumberOfEntries rest
             (averageInformationEntropy
              + (int_to_double count / int_to_double totalNumberOfEntries) * entropy)
             (S divisions)
  end.

(** *** The formulas of the specification *)

(** [Σ p_i · log2(p_i)], the terms added in order. *)
Definition sumPLog2P (log2 : float -> float) (probabilities : list float) : float :=
  fold_left PrimFloat.add (map (fun p => p * log2 p) probabilities) 0.

(** Shannon entropy in bits as the specification writes it:
    [-Σ p_i · log2(p_i)]. *)
Definition shannonEntropy (log2 : float -> float) (probabilities : list float) : float :=
  - sumPLog2P log2 probabilities.

(** [Σ (count_i / totalCount) · entropy_i], the terms added in order. *)
Definition weightedEntropySum (totalCount : Z) (pairs : list (Count * Entropy)) : float :=
  fold_left PrimFloat.add
    (map (fun p : Count * Entropy =>
            (int_to_double (fst p) / int_to_double totalCount) * snd p) pairs)
    0.

(** A [log2] to run the definitions with: exact on the powers of two (and on
    zeros, infinities and NaN as C's Annex F has them), and the linear
    interpolation between neighbouring powers of two elsewhere. *)
Definition log2_interpolated (x : float) : float :=
  if isnan x then nan
  else if x =? 0 then neg_infinity
  else if x <? 0 then nan
  else if x =? infinity then infinity
  else let (m, e) := Z.frexp x in
       int_to_double (e - 1) + (2 * m - 1).

(** ** entries.h

    entries.h declares [Entries] and its methods; their bodies are not in the
    repository's files, so each method below follows section 4.2 of the
    specification.  [unordered_set<string>] is [gset string]; the order in
    which such a set is traversed is the implementation's, so it is the
    parameter [iteration]. *)

Definition Row := list string.

(** Modelled from the spec: the type [AttributeId], which entries.h uses and
    does not declare: a zero-based index over the attribute columns only. *)
Definition AttributeId := nat.

(** [vector<vector<string>> data], the only member of the class. *)
Record Entries : Type := { data : list Row }.

Definition getData (e : Entries) : list Row := data e.

(** Field 0 of a row is its class. *)
Definition classOf (row : Row) : option string := row !! 0%nat.

(** Attribute [attributeId] is field [attributeId + 1] of a row. *)
Definition attributeOf (attributeId : AttributeId) (row : Row) : option string :=
  row !! S attributeId.

(** Modelled from the spec: the body of [Entries::isEmpty]: true iff the row
    count is zero. *)
Definition isEmpty (e : Entries) : bool :=
  match data e with [] => true | _ :: _ => false end.

(** Modelled from the spec: the body of [Entries::getClasses]: the set of
    distinct class labels (field 0) across all rows. *)
Definition getClasses (e : Entries) : gset string :=
  list_to_set (omap classOf (data e)).

(** Modelled from the spec: the body of [Entries::areAllEntriesWithSameClass]:
    true iff [getClasses] has exactly one element. *)
Definition areAllEntriesWithSameClass (e : Entries) : bool :=
  bool_decide (size (getClasses e) = 1%nat).

(** The rows whose value at [attributeId] equals [attributeValue]. *)
Definition entriesWithAttribute (e : Entries) (attributeId : AttributeId)
    (attributeValue : string) : list Row :=
  filter (fun row => attributeOf attributeId row = Some attributeValue) (data e).

(** Modelled from the spec: the body of [Entries::countEntriesByAttribute]:
    the count of rows whose value at [attributeId] equals [attributeValue];
    a value that is not present yields 0. *)
Definition countEntriesByAttribute (e : Entries) (attributeId : AttributeId)
    (attributeValue : string) : Z :=
  Z.of_nat (length (entriesWithAttribute e attributeId attributeValue)).

(** Modelled from the spec: the body of
    [Entries::getAllPossibleAttributeValues]: the set of distinct values
    observed in that column across all rows. *)
Definition getAllPossibleAttributeValues (e : Entries) (attributeId : AttributeId) : gset string :=
  list_to_set (omap (attributeOf attributeId) (data e)).

(** The sum of [countEntriesByAttribute] over the values of
    [getAllPossibleAttributeValues], taken in traversal order. *)
Definition sumOfPartitionCounts (iteration : gset string -> list string)
    (e : Entries) (attributeId : AttributeId) : Z :=
  fold_left Z.add
    (map (countEntriesByAttribute e attributeId)
         (iteration (getAllPossibleAttributeValues e attributeId)))
    0%Z.

(** Modelled from the spec: the conversion of counts to probabilities that
    [calculateAttributeEntropy] and step 1 of
    [getAttributeWithHighestInformationGain] describe, whose code is not in
    the repository's files: the class-label distribution of a collection of
    rows, for every class present the count of rows of that class over the
    number of rows. *)
Definition classDistribution (iteration : gset string -> list string)
    (rows : list Row) : list float :=
  map (fun c =>
         int_to_double (Z.of_nat (length (filter (fun row => classOf row = Some c) rows)))
         / int_to_double (Z.of_nat (length rows)))
      (iteration (list_to_set (omap classOf rows))).

(** Modelled from the spec: the body of [Entries::calculateAttributeEntropy]:
    [calculateEntropy] of the class-label distribution restricted to the rows
    where [attributeId] has [attributeValue]. *)
Definition calculateAttributeEntropy (log2 : float -> float)
    (iteration : gset string -> list string) (e : Entries)
    (attributeId : AttributeId) (attributeValue : string) : completion Entropy :=
  calculateEntropy log2
    (classDistribution iteration (entriesWithAttribute e attributeId attributeValue)).

(** Modelled from the spec: the body of
    [Entries::calculateAttributeAverageInformationEntropy]: one (count,
    entropy) pair per value of the attribute, passed with the total row count
    to [calculateAverageInformationEntropy]. *)
Definition calculateAttributeAverageInformationEntropy (log2 : float -> float)
    (iteration : gset string -> list string) (e : Entries)
    (attributeId : AttributeId) : completion Entropy :=
  let! pairs :=
    forEach (fun attributeValue =>
               let! entropy := calculateAttributeEntropy log2 iteration e attributeId attributeValue in
               Return (countEntriesByAttribute e attributeId attributeValue, entropy))
            (iteration (getAllPossibleAttributeValues e attributeId)) in
  calculateAverageInformationEntropy (Z.of_nat (length (data e))) pairs.

(** Modelled from the spec: the number of candidates [N - 1] of step 2 of
    [getAttributeWithHighestInformationGain] (AttributeIds range over
    [0, N-2]): the fields of a row but the class. *)
Definition numberOfAttributes (e : Entries) : nat :=
  match data e with
  | [] => 0
  | row :: _ => length row - 1
  end.

(** Modelled from the spec: step 1 of
    [getAttributeWithHighestInformationGain]: [E(S)], the entropy of the
    class distribution of the whole dataset. *)
Definition entropyOfDataset (log2 : float -> float)
    (iteration : gset string -> list string) (e : Entries) : completion Entropy :=
  calculateEntropy log2 (classDistribution iteration (data e)).

(** Modelled from the spec: step 2 of
    [getAttributeWithHighestInformationGain]:
    [InformationGain(A) = E(S) - calculateAttributeAverageInformationEntropy(A)]. *)
Definition informationGain (log2 : float -> float)
    (iteration : gset string -> list string) (e : Entries)
    (attributeId : AttributeId) : completion float :=
  let! entropy := entropyOfDataset log2 iteration e in
  let! average := calculateAttributeAverageInformationEntropy log2 iteration e attributeId in
  Return (entropy - average).

(** The gain as a number: NaN where its computation throws. *)
Definition gainOf (log2 : float -> float) (iteration : gset string -> list string)
    (e : Entries) (attributeId : AttributeId) : float :=
  match informationGain log2 iteration e attributeId with
  | Return gain => gain
  | Throw _ => nan
  end.

(** Modelled from the spec: step 3 of
    [getAttributeWithHighestInformationGain] as a loop, the specification
    giving the result and not the loop: scan the gains of the candidates
    [attributeId], [attributeId + 1], ...; a candidate replaces the best one
    so far only with a strictly greater gain, so that of several candidates
    of maximal gain the lowest stays. *)
Fixpoint selectHighest (gains : list float) (attributeId : AttributeId)
    (best : AttributeId) (bestGain : float) : AttributeId :=
  match gains with
  | [] => best
  | gain :: rest =>
      if bestGain <? gain
      then selectHighest rest (S attributeId) attributeId gain
      else selectHighest rest (S attributeId) best bestGain
  end.

(** Modelled from the spec: step 3 of
    [getAttributeWithHighestInformationGain] in the specification's words:
    the lowest AttributeId among the candidates of maximal gain, a gain being
    maximal when no candidate's gain is greater.  The loop [selectHighest]
    is compared with it. *)
Definition lowestOfMaximalGain (gains : list float) : option AttributeId :=
  fst <$> list_find
            (fun gain => Forall (fun other => PrimFloat.ltb gain other = false) gains)
            gains.

(** Modelled from the spec: the body of
    [Entries::getAttributeWithHighestInformationGain]: [E(S)] is computed
    once, then the gain of every candidate in [0, N-2]; the result is the
    lowest AttributeId among those of maximal gain.  An empty dataset or one
    without attribute columns gets an error; the specification names no kind
    for it, the model raises [InvalidNumberOfEntriesException]. *)
Definition getAttributeWithHighestInformationGain (log2 : float -> float)
    (iteration : gset string -> list string) (e : Entries) : completion AttributeId :=
  match numberOfAttributes e with
  | O => Throw (InvalidNumberOfEntriesException 0 (Z.of_nat (length (data e))))
  | S _ =>
      let! entropy := entropyOfDataset log2 iteration e in
      let! gains :=
        forEach (fun attributeId =>
                   let! average :=
                     calculateAttributeAverageInformationEntropy log2 iteration e attributeId in
                   Return (entropy - average))
                (seq 0 (numberOfAttributes e)) in
      match gains with
      | [] => Throw (InvalidNumberOfEntriesException 0 (Z.of_nat (length (data e))))
      | gain :: rest => Return (selectHighest rest 1%nat 0%nat gain)
      end
  end.

(** ** Auxiliary definitions of the proofs *)

(** [E] is the opposite of [S], the sign of a zero left aside. *)
Definition opposite_value (E S : spec_float) : Prop :=
  match E, S with
  | S754_zero _, S754_zero _ => True
  | _, _ => E = SFopp S
  end.

(** Two attribute columns that split the classes equally well. *)
Definition twoEqualAttributes : Entries :=
  {| data := [["Yes"; "a"; "p"]; ["No"; "b"; "q"]; ["Yes"; "a"; "p"]; ["No"; "b"; "q"]] |}.

(** Six rows, six classes, one attribute column. *)
Definition sixClasses : Entries :=
  {| data := [["a"; "x"]; ["b"; "x"]; ["c"; "x"]; ["d"; "x"]; ["e"; "x"]; ["f"; "x"]] |}.

(** [std::isfinite]: neither NaN nor an infinity. *)
Definition isfinite (x : float) : bool := abs x <? infinity.

(** The largest [int]. *)
Definition INT_MAX : Z := 2147483647.

(** A NaN or an infinity. *)
Definition SFnonfinite (X : spec_float) : Prop :=
  match X with
  | S754_nan | S754_infinity _ => True
  | _ => False
  end.

(** The sign bit of [X] is [s], or [X] is NaN. *)
Definition SFsign_is (s : bool) (X : spec_float) : Prop :=
  match X with
  | S754_nan => True
  | S754_zero s' | S754_infinity s' | S754_finite s' _ _ => s' = s
  end.

(** Not below zero: NaN, a zero of either sign, or a positive value. *)
Definition SFnot_negative (X : spec_float) : Prop :=
  match X with
  | S754_infinity true | S754_finite true _ _ => False
  | _ => True
  end.

(** Not above zero: NaN, a zero of either sign, or a negative value. *)
Definition SFnot_positive (X : spec_float) : Prop :=
  match X with
  | S754_infinity false | S754_finite false _ _ => False
  | _ => True
  end.

(** * Properties *)

(** ** Facts about doubles *)

Lemma Prim2SF_one : Prim2SF 1 = S754_finite false 4503599627370496 (-52).
Proof. reflexivity. Qed.

Lemma eqb_one_inv (x : float) : (x =? 1) = true -> x = 1.
Proof.
  rewrite FloatAxioms.eqb_spec, Prim2SF_one. intros H.
  apply Prim2SF_inj. rewrite Prim2SF_one.
  destruct (Prim2SF x) as [s|s| |s m e]; try destruct s; try discriminate H.
  unfold SFeqb, SFcompare in H.
  destruct (Z.compare_spec e (-52)) as [He|He|He]; try discriminate H.
  destruct (Pos.compare_cont Eq m _) eqn:Hm in H; try discriminate H.
  apply Pos.compare_eq in Hm. now subst.
Qed.

Lemma eqb_zero_inv (x : float) : (x =? 0) = true -> x = 0 \/ x = -0.
Proof.
  rewrite FloatAxioms.eqb_spec. change (Prim2SF 0) with (S754_zero false). intros H.
  destruct (Prim2SF x) as [s|s| |s m e] eqn:Hx; try destruct s; try discriminate H.
  - right. apply Prim2SF_inj. now rewrite Hx.
  - left. apply Prim2SF_inj. now rewrite Hx.
Qed.

Lemma sub_nan_r (x : float) : x - nan = nan.
Proof.
  apply Prim2SF_inj. rewrite FloatAxioms.sub_spec. change (Prim2SF nan) with S754_nan.
  now destruct (Prim2SF x).
Qed.

Lemma sub_nan_l (x : float) : nan - x = nan.
Proof.
  apply Prim2SF_inj. rewrite FloatAxioms.sub_spec. change (Prim2SF nan) with S754_nan.
  reflexivity.
Qed.

Lemma ltb_leb_zero (eps : float) : (0 <=? eps) = true -> (eps <? 0) = false.
Proof.
  rewrite FloatAxioms.leb_spec, FloatAxioms.ltb_spec. change (Prim2SF 0) with (S754_zero false).
  destruct (Prim2SF eps) as [s|s| |s m e]; try destruct s; cbn; congruence.
Qed.

Lemma eqb_one_iff (x : float) : (x =? 1) = true <-> x = 1.
Proof.
  split; [apply eqb_one_inv | now intros ->].
Qed.

(** ** calculateAverageInformationEntropy *)

Lemma averageLoop_accepts total pairs avg :
  Forall (fun p : Count * Entropy => (fst p <= total)%Z) pairs ->
  averageLoop total pairs avg =
  Return (fold_left PrimFloat.add
            (map (fun p : Count * Entropy =>
                    (int_to_double (fst p) / int_to_double total) * snd p) pairs)
            avg).
Proof.
  intros Hall. revert avg.
  induction Hall as [|[count entropy] rest Hle _ IH]; intros avg; cbn [averageLoop map fold_left].
  - reflexivity.
  - cbn [fst] in Hle. destruct (Z.gtb_spec count total) as [Hgt|_]; [lia|].
    apply IH.
Qed.

Lemma averageLoop_throws total pairs avg ex :
  averageLoop total pairs avg = Throw ex ->
  exists count, ex = InvalidNumberOfEntriesException count total
                /\ (total < count)%Z /\ In count (map fst pairs).
Proof.
  revert avg. induction pairs as [|[count entropy] rest IH]; intros avg; cbn [averageLoop].
  - discriminate.
  - destruct (Z.gtb_spec count total) as [Hgt|Hle].
    + intros [= <-]. exists count. cbn. split; [reflexivity|]. split; [lia|now left].
    + intros H. destruct (IH _ H) as (c & -> & Hc & Hin).
      exists c. cbn. auto.
Qed.

Lemma averageLoop_throws_iff total pairs avg :
  throwsInvalidNumberOfEntries (averageLoop total pairs avg) = true
  <-> Exists (fun p : Count * Entropy => (total < fst p)%Z) pairs.
Proof.
  revert avg. induction pairs as [|[count entropy] rest IH]; intros avg; cbn [averageLoop].
  - split; [discriminate | intros H; inversion H].
  - destruct (Z.gtb_spec count total) as [Hgt|Hle].
    + split; [intros _; left; cbn; lia | reflexivity].
    + rewrite IH. split; [now right|].
      intros H. inversion H as [? ? Hhd|? ? Htl]; subst; [cbn in Hhd; lia | exact Htl].
Qed.

Lemma averageLoopDivisions_fst total pairs avg n :
  fst (averageLoopDivisions total pairs avg n) = averageLoop total pairs avg.
Proof.
  revert avg n. induction pairs as [|[count entropy] rest IH]; intros avg n; cbn.
  - reflexivity.
  - destruct (count >? total)%Z; [reflexivity | apply IH].
Qed.

(** C4. [calculateAverageInformationEntropy] throws
    [InvalidNumberOfEntriesException] exactly when some count of the list is
    greater than the total; it throws no other exception; and on
    [(10, [(11, 0.5)])] it throws, reporting count 11 and total 10. *)
Theorem calculateAverageInformationEntropy_throws_iff_count_exceeds :
  forall (total : Z) (pairs : list (Count * Entropy)),
    (throwsInvalidNumberOfEntries (calculateAverageInformationEntropy total pairs) = true
     <-> Exists (fun p : Count * Entropy => (total < fst p)%Z) pairs)
    /\ (returns (calculateAverageInformationEntropy total pairs)
        = negb (throwsInvalidNumberOfEntries (calculateAverageInformationEntropy total pairs)))
    /\ calculateAverageInformationEntropy 10 [(11%Z, 0.5)]
       = Throw (InvalidNumberOfEntriesException 11 10).
Proof.
  intros total pairs. split; [apply averageLoop_throws_iff|]. split; [|reflexivity].
  unfold calculateAverageInformationEntropy.
  destruct (averageLoop total pairs 0) as [r|ex] eqn:H; [reflexivity|].
  destruct (averageLoop_throws _ _ _ _ H) as (c & -> & _). reflexivity.
Qed.

(** C6. With a positive total and every count at most the total,
    [calculateAverageInformationEntropy] returns the weighted sum
    [Σ (count_i / totalCount) · entropy_i] of the specification (in double
    arithmetic, the terms added in list order starting from 0). *)
Theorem calculateAverageInformationEntropy_weighted_sum :
  forall (total : Z) (pairs : list (Count * Entropy)),
    (0 < total)%Z ->
    Forall (fun p : Count * Entropy => (fst p <= total)%Z) pairs ->
    calculateAverageInformationEntropy total pairs
    = Return (weightedEntropySum total pairs).
Proof.
  intros total pairs _ Hall. now apply averageLoop_accepts.
Qed.

Lemma calculateAverageInformationEntropy_weighted_sum_witness :
  calculateAverageInformationEntropy 14 [(5%Z, 1); (4%Z, 0); (5%Z, 0.5)]
  = Return (weightedEntropySum 14 [(5%Z, 1); (4%Z, 0); (5%Z, 0.5)]).
Proof.
  apply calculateAverageInformationEntropy_weighted_sum.
  - lia.
  - repeat constructor; cbn; lia.
Defined.

(** C9. The check of [calculateAverageInformationEntropy] is the strict
    [count > totalNumberOfEntries] and nothing else.  A pair whose count
    equals the total is accepted and adds [(count / total) · entropy] to the
    accumulator; so is every count up to the total, negative ones included;
    only a count strictly greater than the total throws. *)
Theorem calculateAverageInformationEntropy_check_is_strict :
  forall (total count : Z) (entropy avg : float) (rest : list (Count * Entropy)),
    averageLoop total ((total, entropy) :: rest) avg
    = averageLoop total rest
        (avg + (int_to_double total / int_to_double total) * entropy)
    /\ calculateAverageInformationEntropy total [(total, entropy)]
       = Return (0 + (int_to_double total / int_to_double total) * entropy)
    /\ ((count <= total)%Z ->
        averageLoop total ((count, entropy) :: rest) avg
        = averageLoop total rest
            (avg + (int_to_double count / int_to_double total) * entropy))
    /\ ((count < 0)%Z -> (0 <= total)%Z ->
        calculateAverageInformationEntropy total [(count, entropy)]
        = Return (0 + (int_to_double count / int_to_double total) * entropy))
    /\ ((total < count)%Z ->
        averageLoop total ((count, entropy) :: rest) avg
        = Throw (InvalidNumberOfEntriesException count total))
    /\ (throwsInvalidNumberOfEntries
          (averageLoop total ((count, entropy) :: rest) avg) = true ->
        (total < count)%Z \/ Exists (fun p : Count * Entropy => (total < fst p)%Z) rest).
Proof.
  intros total count entropy avg rest.
  assert (Hstep : forall c, (c <= total)%Z ->
            averageLoop total ((c, entropy) :: rest) avg
            = averageLoop total rest
                (avg + (int_to_double c / int_to_double total) * entropy)).
  { intros c Hc. cbn [averageLoop]. destruct (Z.gtb_spec c total); [lia | reflexivity]. }
  assert (Hone : forall c, (c <= total)%Z ->
            calculateAverageInformationEntropy total [(c, entropy)]
            = Return (0 + (int_to_double c / int_to_double total) * entropy)).
  { intros c Hc. unfold calculateAverageInformationEntropy. cbn [averageLoop].
    destruct (Z.gtb_spec c total); [lia | reflexivity]. }
  split; [apply Hstep; lia|]. split; [apply Hone; lia|]. split; [apply Hstep|].
  split; [intros; apply Hone; lia|]. split.
  - intros Hgt. cbn [averageLoop]. destruct (Z.gtb_spec count total); [reflexivity | lia].
  - intros H. apply averageLoop_throws_iff in H.
    inversion H as [? ? Hhd|? ? Htl]; subst; [left; exact Hhd | right; exact Htl].
Qed.

Lemma calculateAverageInformationEntropy_check_is_strict_witness :
  calculateAverageInformationEntropy 10 [((-5)%Z, 1)] = Return (-0.5)
  /\ averageLoop 10 [(11%Z, 1)] 0 = Throw (InvalidNumberOfEntriesException 11 10).
Proof.
  destruct (calculateAverageInformationEntropy_check_is_strict 10 (-5) 1 0 [])
    as (_ & _ & _ & Hneg & _).
  destruct (calculateAverageInformationEntropy_check_is_strict 10 11 1 0 [])
    as (_ & _ & _ & _ & Hgt & _).
  split.
  - rewrite Hneg; [reflexivity | lia | lia].
  - apply Hgt. lia.
Defined.

(** C10. On the empty list [calculateAverageInformationEntropy] returns 0
    for every total, 0 included: it throws nothing, and the loop body, the
    only place that divides, is not run. *)
Theorem calculateAverageInformationEntropy_empty :
  forall total : Z,
    calculateAverageInformationEntropy total [] = Return 0
    /\ calculateAverageInformationEntropy 0 [] = Return 0
    /\ averageLoopDivisions total [] 0 0 = (Return 0, 0%nat).
Proof.
  intros total. repeat split.
Qed.

(** ** calculateEntropy *)

Lemma calculateEntropy_returns_iff log2 ps :
  returns (calculateEntropy log2 ps) = true <-> sumOfProbabilites ps = 1.
Proof.
  unfold calculateEntropy. rewrite <- eqb_one_iff.
  destruct (sumOfProbabilites ps =? 1); cbn; split; congruence.
Qed.

Lemma calculateEntropy_accepted log2 ps :
  sumOfProbabilites ps = 1 ->
  calculateEntropy log2 ps = Return (entropyLoop log2 ps 0).
Proof.
  intros H. unfold calculateEntropy. now rewrite H.
Qed.

Lemma calculateEntropy_rejected log2 ps :
  sumOfProbabilites ps <> 1 ->
  calculateEntropy log2 ps = Throw InvalidSumOfProbabilitiesException.
Proof.
  intros H. unfold calculateEntropy.
  destruct (sumOfProbabilites ps =? 1) eqn:E; [|reflexivity].
  now apply eqb_one_inv in E.
Qed.

(** C2, as the code has it.  [calculateEntropy] accepts a distribution
    exactly when the double sum of its entries, added in order from 0, is the
    double 1.0 itself; it allows no tolerance. *)
Theorem calculateEntropy_accepts_iff_sum_is_one :
  forall (log2 : float -> float) (probabilities : list float),
    (returns (calculateEntropy log2 probabilities) = true
     <-> sumOfProbabilites probabilities = 1)
    /\ (throwsInvalidSumOfProbabilities (calculateEntropy log2 probabilities) = true
        <-> sumOfProbabilites probabilities <> 1).
Proof.
  intros log2 ps. split; [apply calculateEntropy_returns_iff|].
  split.
  - intros H Hs. rewrite (calculateEntropy_accepted _ _ Hs) in H. discriminate.
  - intros H. now rewrite calculateEntropy_rejected.
Qed.

(** C2, a distribution the claim wants accepted: [[0.5; 0.4999999998]] sums
    to 0.9999999998, within 1e-9 of 1, and [calculateEntropy] throws. *)
Lemma calculateEntropy_rejects_sum_within_tolerance :
  (abs (sumOfProbabilites [0.5; 0.4999999998] - 1) <=? 1e-9) = true
  /\ sumOfProbabilites [0.5; 0.4999999998] = 0.9999999998
  /\ forall log2 : float -> float,
       calculateEntropy log2 [0.5; 0.4999999998]
       = Throw InvalidSumOfProbabilitiesException.
Proof.
  repeat split.
Qed.

(** C5. [calculateEntropy] throws [InvalidSumOfProbabilitiesException], and
    returns no entropy, whenever the sum of the probabilities is not 1; so it
    does when the sum is further from 1 than a tolerance [eps >= 0]; and
    [[0.5; 0.49]] is such an input. *)
Theorem calculateEntropy_throws_when_sum_deviates :
  forall (log2 : float -> float),
    (forall probabilities : list float,
        sumOfProbabilites probabilities <> 1 ->
        calculateEntropy log2 probabilities = Throw InvalidSumOfProbabilitiesException)
    /\ (forall (probabilities : list float) (eps : float),
        (0 <=? eps) = true ->
        (eps <? abs (sumOfProbabilites probabilities - 1)) = true ->
        calculateEntropy log2 probabilities = Throw InvalidSumOfProbabilitiesException
        /\ returns (calculateEntropy log2 probabilities) = false)
    /\ calculateEntropy log2 [0.5; 0.49] = Throw InvalidSumOfProbabilitiesException.
Proof.
  intros log2. split; [apply calculateEntropy_rejected|]. split; [|reflexivity].
  intros ps eps Heps Hdev.
  assert (Hne : sumOfProbabilites ps <> 1).
  { intros Hs. rewrite Hs in Hdev. change (abs (1 - 1)) with 0 in Hdev.
    rewrite (ltb_leb_zero _ Heps) in Hdev. discriminate. }
  rewrite (calculateEntropy_rejected _ _ Hne). split; reflexivity.
Qed.

Lemma calculateEntropy_throws_when_sum_deviates_witness :
  calculateEntropy log2_interpolated [0.5; 0.49] = Throw InvalidSumOfProbabilitiesException
  /\ returns (calculateEntropy log2_interpolated [0.5; 0.49]) = false.
Proof.
  apply (proj1 (proj2 (calculateEntropy_throws_when_sum_deviates log2_interpolated))
           [0.5; 0.49] 1e-9); reflexivity.
Defined.

(** *** The loop of [calculateEntropy] against [-Σ p·log2(p)] *)

Lemma binary_round_aux_opp s m e l :
  binary_round_aux prec emax (negb s) m e l = SFopp (binary_round_aux prec emax s m e l).
Proof.
  unfold binary_round_aux.
  destruct (shr_fexp prec emax m e l) as [mrs' e'].
  destruct (shr_fexp prec emax _ e' loc_Exact) as [mrs'' e''].
  destruct (shr_m mrs'') as [|p|p]; [reflexivity| |reflexivity].
  now destruct (Z.leb e'' (emax - prec)).
Qed.

Lemma binary_round_opp s m e :
  binary_round prec emax (negb s) m e = SFopp (binary_round prec emax s m e).
Proof.
  unfold binary_round.
  destruct (shl_align m e _) as [mz ez]. apply binary_round_aux_opp.
Qed.

Lemma binary_normalize_opp m e :
  opposite_value (binary_normalize prec emax (- m) e false)
                 (binary_normalize prec emax m e false).
Proof.
  destruct m as [|p|p].
  - exact I.
  - change (opposite_value (binary_round prec emax (negb false) p e)
                           (binary_round prec emax false p e)).
    rewrite binary_round_opp.
    now destruct (binary_round prec emax false p e).
  - change (opposite_value (binary_round prec emax (negb true) p e)
                           (binary_round prec emax true p e)).
    rewrite binary_round_opp.
    now destruct (binary_round prec emax true p e).
Qed.

Lemma cond_Zopp_negb s m : cond_Zopp (negb s) m = (- cond_Zopp s m)%Z.
Proof. destruct s; cbn; lia. Qed.

Lemma SFsub_SFadd_opposite E S T :
  opposite_value E S -> opposite_value (SF64sub E T) (SF64add S T).
Proof.
  unfold SF64sub, SF64add.
  destruct S as [sx|sx| |sx mx ex], E as [se|se| |se me ee]; cbn [opposite_value SFopp];
    try discriminate; intros H; try (injection H as ? ? ?; subst).
  all: destruct T as [sy|sy| |sy my ey]; cbn [SFsub SFadd opposite_value SFopp].
  all: try exact I; try reflexivity.
  all: try (destruct sx, sy; try destruct se; cbn; try exact I; try reflexivity; fail).
  all: try (injection H as ->; destruct sx, sy; cbn; try exact I; reflexivity).
  rewrite cond_Zopp_negb.
  match goal with |- opposite_value (binary_normalize _ _ ?a _ _) (binary_normalize _ _ ?b _ _) =>
    replace a with (- b)%Z by lia end.
  apply binary_normalize_opp.
Qed.

Lemma entropyLoop_opposite log2 ps e s :
  opposite_value (Prim2SF e) (Prim2SF s) ->
  opposite_value
    (Prim2SF (entropyLoop log2 ps e))
    (Prim2SF (fold_left PrimFloat.add (map (fun p => p * log2 p) ps) s)).
Proof.
  revert e s. induction ps as [|p ps IH]; intros e s H; cbn [entropyLoop map fold_left].
  - exact H.
  - apply IH. rewrite FloatAxioms.sub_spec, FloatAxioms.add_spec.
    now apply SFsub_SFadd_opposite.
Qed.

Lemma opposite_value_same e s :
  opposite_value (Prim2SF e) (Prim2SF s) -> same_value e (- s).
Proof.
  unfold same_value. rewrite FloatAxioms.eqb_spec, opp_spec.
  intros H.
  destruct (Prim2SF e) as [se|se| |se me ee] eqn:He;
    destruct (Prim2SF s) as [ss|ss| |ss ms es] eqn:Hs; cbn [opposite_value] in H;
    try (left; apply Prim2SF_inj; rewrite opp_spec, He, Hs; exact H).
  right. reflexivity.
Qed.

Lemma entropyLoop_shannon log2 ps :
  same_value (entropyLoop log2 ps 0) (shannonEntropy log2 ps).
Proof.
  apply opposite_value_same, entropyLoop_opposite. exact I.
Qed.

Lemma entropyLoop_nan log2 ps : entropyLoop log2 ps nan = nan.
Proof.
  induction ps as [|p ps IH]; cbn [entropyLoop fold_left]; [reflexivity|].
  rewrite sub_nan_l. exact IH.
Qed.

Lemma entropyLoop_zero_probability log2 ps e :
  log2 0 = neg_infinity -> log2 (-0) = neg_infinity ->
  Exists (fun p => (p =? 0) = true) ps ->
  entropyLoop log2 ps e = nan.
Proof.
  intros Hpos Hneg Hex. revert e.
  induction Hex as [p ps Hp|p ps _ IH]; intros e; cbn [entropyLoop fold_left].
  - assert (Hterm : p * log2 p = nan).
    { destruct (eqb_zero_inv _ Hp) as [-> | ->]; [rewrite Hpos | rewrite Hneg]; reflexivity. }
    rewrite Hterm, sub_nan_r. apply entropyLoop_nan.
  - apply IH.
Qed.

Section Log2.
Variable log2 : float -> float.

(** C's Annex F: [log2(±0)] is minus infinity and [log2(1)] is [+0]. *)
Hypothesis log2_zero : log2 0 = neg_infinity.
Hypothesis log2_neg_zero : log2 (-0) = neg_infinity.
Hypothesis log2_one : log2 1 = 0.
(** [log2] is exact on the powers of two 1/2 and 1/4. *)
Hypothesis log2_half : log2 0.5 = -1.
Hypothesis log2_quarter : log2 0.25 = -2.

(** C7. On an accepted distribution [calculateEntropy] returns
    [-Σ p_i · log2(p_i)] (in double arithmetic; the two agree as C++ [==]
    does, or are both NaN); and it returns 0 for [[1.0]], 1.0 for
    [[0.5; 0.5]] and 2.0 for [[0.25; 0.25; 0.25; 0.25]]. *)
Theorem calculateEntropy_is_shannon_entropy :
  (forall probabilities : list float,
      sumOfProbabilites probabilities = 1 ->
      exists entropy : Entropy,
        calculateEntropy log2 probabilities = Return entropy
        /\ same_value entropy (shannonEntropy log2 probabilities))
  /\ calculateEntropy log2 [1] = Return 0
  /\ calculateEntropy log2 [0.5; 0.5] = Return 1
  /\ calculateEntropy log2 [0.25; 0.25; 0.25; 0.25] = Return 2.
Proof.
  split; [|split; [|split]].
  - intros ps Hs. exists (entropyLoop log2 ps 0).
    split; [now apply calculateEntropy_accepted | apply entropyLoop_shannon].
  - rewrite calculateEntropy_accepted by reflexivity.
    cbn [entropyLoop fold_left]. now rewrite log2_one.
  - rewrite calculateEntropy_accepted by reflexivity.
    cbn [entropyLoop fold_left]. now rewrite log2_half.
  - rewrite calculateEntropy_accepted by reflexivity.
    cbn [entropyLoop fold_left]. now rewrite log2_quarter.
Qed.

(** C1, what the code does.  On an accepted distribution with an entry
    equal to 0 (either zero), the term [0 * log2(0)] is [0 * -inf], a NaN,
    and [calculateEntropy] returns NaN, not the Shannon entropy. *)
Theorem calculateEntropy_zero_probability_is_nan :
  forall probabilities : list float,
    sumOfProbabilites probabilities = 1 ->
    Exists (fun p => (p =? 0) = true) probabilities ->
    calculateEntropy log2 probabilities = Return nan.
Proof.
  intros ps Hs Hex. rewrite (calculateEntropy_accepted _ _ Hs).
  f_equal. now apply entropyLoop_zero_probability.
Qed.
End Log2.

Lemma log2_interpolated_values :
  log2_interpolated 0 = neg_infinity /\ log2_interpolated (-0) = neg_infinity
  /\ log2_interpolated 1 = 0 /\ log2_interpolated 0.5 = -1
  /\ log2_interpolated 0.25 = -2.
Proof. repeat split. Qed.

Lemma calculateEntropy_is_shannon_entropy_witness :
  (exists entropy : Entropy,
      calculateEntropy log2_interpolated [0.5; 0.25; 0.25] = Return entropy
      /\ same_value entropy (shannonEntropy log2_interpolated [0.5; 0.25; 0.25]))
  /\ calculateEntropy log2_interpolated [1] = Return 0
  /\ calculateEntropy log2_interpolated [0.5; 0.5] = Return 1
  /\ calculateEntropy log2_interpolated [0.25; 0.25; 0.25; 0.25] = Return 2.
Proof.
  destruct (calculateEntropy_is_shannon_entropy log2_interpolated
              eq_refl eq_refl eq_refl) as [Hall Hvalues].
  split; [apply Hall; reflexivity | exact Hvalues].
Defined.

Lemma calculateEntropy_zero_probability_is_nan_witness :
  calculateEntropy log2_interpolated [1; 0] = Return nan.
Proof.
  apply (calculateEntropy_zero_probability_is_nan log2_interpolated);
    [reflexivity | reflexivity | reflexivity |].
  right. left. reflexivity.
Defined.

(** *** The order of doubles *)

Ltac compare_cases :=
  repeat match goal with
    | H : context [Pos.compare_cont Eq ?a ?b] |- _ =>
        change (Pos.compare_cont Eq a b) with (Pos.compare a b) in H
    | |- context [Pos.compare_cont Eq ?a ?b] =>
        change (Pos.compare_cont Eq a b) with (Pos.compare a b)
    end;
  repeat match goal with
    | H : context [Z.compare ?a ?b] |- _ => destruct (Z.compare_spec a b)
    | |- context [Z.compare ?a ?b] => destruct (Z.compare_spec a b)
    | H : context [Pos.compare ?a ?b] |- _ => destruct (Pos.compare_spec a b)
    | |- context [Pos.compare ?a ?b] => destruct (Pos.compare_spec a b)
    end;
  subst; cbn in *; try discriminate; try reflexivity; try lia.

Lemma SFcompare_lt_trans x y z :
  SFcompare x y = Some Lt -> SFcompare y z = Some Lt -> SFcompare x z = Some Lt.
Proof.
  destruct x as [sx|sx| |sx mx ex], y as [sy|sy| |sy my ey], z as [sz|sz| |sz mz ez];
    cbn [SFcompare]; try discriminate;
    try destruct sx; try destruct sy; try destruct sz; try discriminate; try reflexivity.
  all: intros H1 H2; injection H1 as H1; injection H2 as H2; f_equal.
  all: compare_cases.
Qed.

Lemma SFcompare_lt_eq_trans x y z :
  SFcompare x y = Some Lt -> SFcompare y z = Some Eq -> SFcompare x z = Some Lt.
Proof.
  destruct x as [sx|sx| |sx mx ex], y as [sy|sy| |sy my ey], z as [sz|sz| |sz mz ez];
    cbn [SFcompare]; try discriminate;
    try destruct sx; try destruct sy; try destruct sz; try discriminate; try reflexivity.
  all: intros H1 H2; injection H1 as H1; injection H2 as H2; f_equal.
  all: compare_cases.
Qed.

Lemma SFcompare_irrefl x : SFcompare x x <> Some Lt.
Proof.
  destruct x as [sx|sx| |sx mx ex]; cbn [SFcompare]; try destruct sx; try discriminate.
  all: intros H; injection H as H; compare_cases.
Qed.

Lemma ltb_irrefl (x : float) : (x <? x) = false.
Proof.
  rewrite FloatAxioms.ltb_spec. unfold SFltb.
  destruct (SFcompare (Prim2SF x) (Prim2SF x)) as [[| |]|] eqn:H; try reflexivity.
  now apply SFcompare_irrefl in H.
Qed.

Lemma ltb_trans (x y z : float) :
  (x <? y) = true -> (y <? z) = true -> (x <? z) = true.
Proof.
  rewrite !FloatAxioms.ltb_spec. unfold SFltb.
  destruct (SFcompare (Prim2SF x) (Prim2SF y)) as [[| |]|] eqn:H1; try discriminate.
  destruct (SFcompare (Prim2SF y) (Prim2SF z)) as [[| |]|] eqn:H2; try discriminate.
  now rewrite (SFcompare_lt_trans _ _ _ H1 H2).
Qed.

Lemma ltb_leb_trans (x y z : float) :
  (x <? y) = true -> (y <=? z) = true -> (x <? z) = true.
Proof.
  rewrite !FloatAxioms.ltb_spec, FloatAxioms.leb_spec. unfold SFltb, SFleb.
  destruct (SFcompare (Prim2SF x) (Prim2SF y)) as [[| |]|] eqn:H1; try discriminate.
  destruct (SFcompare (Prim2SF y) (Prim2SF z)) as [[| |]|] eqn:H2; try discriminate.
  - now rewrite (SFcompare_lt_eq_trans _ _ _ H1 H2).
  - now rewrite (SFcompare_lt_trans _ _ _ H1 H2).
Qed.

(** ** Entries *)

Local Close Scope float_scope.
Local Open Scope Z_scope.

Lemma fold_left_Zadd (l : list Z) (a : Z) :
  fold_left Z.add l a = (a + foldr Z.add 0%Z l)%Z.
Proof.
  revert a. induction l as [|x l IH]; intros a; cbn [fold_left foldr]; [lia|].
  rewrite IH. lia.
Qed.

(** In a duplicate-free list that holds [x], exactly one element is [x]. *)
Lemma sum_indicator (x : string) (L : list string) :
  NoDup L -> x ∈ L ->
  foldr Z.add 0%Z (map (fun v => if decide (Some x = Some v) then 1%Z else 0%Z) L) = 1%Z.
Proof.
  induction 1 as [|y L Hy Hnd IH]; intros Hin.
  - now apply elem_of_nil in Hin.
  - cbn [map foldr]. apply elem_of_cons in Hin as [-> | Hin].
    + rewrite decide_True by reflexivity.
      assert (Hz : foldr Z.add 0%Z
                (map (fun v => if decide (Some y = Some v) then 1%Z else 0%Z) L) = 0%Z).
      { clear IH Hnd. induction L as [|z L IHL]; [reflexivity|]. cbn [map foldr].
        apply not_elem_of_cons in Hy as [Hne Hy].
        rewrite decide_False by congruence. rewrite IHL by assumption. reflexivity. }
      rewrite Hz. reflexivity.
    + rewrite decide_False by (intros [= ->]; contradiction).
      rewrite IH by assumption. reflexivity.
Qed.

Lemma sum_split (f g : string -> Z) (L : list string) :
  foldr Z.add 0%Z (map (fun v => f v + g v) L)
  = (foldr Z.add 0%Z (map f L) + foldr Z.add 0%Z (map g L))%Z.
Proof.
  induction L as [|v L IH]; cbn [map foldr]; lia.
Qed.

(** Over a duplicate-free list holding the value every row has at
    [attributeId], the per-value row counts add up to the number of rows. *)
Lemma partition_counts (attributeId : AttributeId) (L : list string) (rows : list Row) :
  NoDup L ->
  Forall (fun row => exists x, attributeOf attributeId row = Some x /\ x ∈ L) rows ->
  foldr Z.add 0%Z
    (map (fun v => Z.of_nat (length (filter (fun row => attributeOf attributeId row = Some v) rows))) L)
  = Z.of_nat (length rows).
Proof.
  intros Hnd. induction 1 as [|row rows (x & Hx & Hin) _ IH].
  - cbn. induction L as [|v L IHL]; cbn [map foldr]; [reflexivity|].
    apply NoDup_cons in Hnd as [_ Hnd]. rewrite IHL by assumption. reflexivity.
  - transitivity
      (foldr Z.add 0%Z
         (map (fun v =>
                 (if decide (Some x = Some v) then 1%Z else 0%Z)
                 + Z.of_nat (length (filter (fun row => attributeOf attributeId row = Some v) rows)))
              L))%Z.
    + f_equal. apply map_ext. intros v. rewrite filter_cons, Hx.
      destruct (decide (Some x = Some v)); cbn [length]; lia.
    + rewrite sum_split, sum_indicator, IH by assumption. cbn [length]. lia.
Qed.

Section Traversal.
Variable iteration : gset string -> list string.

(** Traversing a set visits each of its elements once, in some order. *)
Hypothesis iteration_elements : forall X : gset string, iteration X ≡ₚ elements X.

(** C8. In a non-empty dataset whose rows all have [N] fields, for every
    attribute of the valid range [0, N-2], the counts
    [countEntriesByAttribute] of the values of
    [getAllPossibleAttributeValues] add up to the number of rows. *)
Theorem partition_counts_sum_to_row_count :
  forall (e : Entries) (attributeId : AttributeId) (N : nat),
    data e <> [] ->
    Forall (fun row : Row => length row = N) (data e) ->
    (S attributeId < N)%nat ->
    sumOfPartitionCounts iteration e attributeId = Z.of_nat (length (data e)).
Proof.
  intros e a N _ Hrows Ha.
  unfold sumOfPartitionCounts. rewrite fold_left_Zadd, Z.add_0_l.
  unfold countEntriesByAttribute, entriesWithAttribute.
  apply partition_counts.
  - rewrite iteration_elements. apply NoDup_elements.
  - apply Forall_forall. intros row Hrow.
    rewrite Forall_forall in Hrows. specialize (Hrows _ Hrow).
    destruct (lookup_lt_is_Some_2 row (S a)) as [x Hx]; [lia|].
    exists x. split; [exact Hx|].
    rewrite iteration_elements. apply elem_of_elements.
    unfold getAllPossibleAttributeValues. apply elem_of_list_to_set.
    apply list_elem_of_omap. exists row. split; assumption.
Qed.
End Traversal.

Lemma partition_counts_sum_to_row_count_witness :
  sumOfPartitionCounts elements
    {| data := [["Yes"; "Sunny"; "Weak"]; ["No"; "Rain"; "Weak"]; ["Yes"; "Sunny"; "Strong"]] |}
    0%nat
  = 3.
Proof.
  refine (partition_counts_sum_to_row_count elements (fun X => reflexivity _)
            {| data := [["Yes"; "Sunny"; "Weak"]; ["No"; "Rain"; "Weak"];
                        ["Yes"; "Sunny"; "Strong"]] |}
            0%nat 3%nat _ _ _).
  - discriminate.
  - repeat constructor.
  - lia.
Defined.

Lemma forEach_returns {A B : Type} (f : A -> completion B) (g : A -> B) (l : list A) :
  Forall (fun a => f a = Return (g a)) l -> forEach f l = Return (map g l).
Proof.
  induction 1 as [|a l Ha _ IH]; cbn [forEach map]; [reflexivity|].
  rewrite Ha, IH. reflexivity.
Qed.

(** The scan keeps a candidate no later one beats, and that beats every
    earlier one. *)
Lemma selectHighest_spec (g : nat -> float) (n k best : nat) :
  (best < k)%nat ->
  (forall a, (a < k)%nat -> PrimFloat.ltb (g best) (g a) = false) ->
  (forall a, (a < best)%nat -> PrimFloat.leb (g best) (g a) = false) ->
  let r := selectHighest (map g (seq k n)) k best (g best) in
  (r < k + n)%nat
  /\ (forall a, (a < k + n)%nat -> PrimFloat.ltb (g r) (g a) = false)
  /\ (forall a, (a < r)%nat -> PrimFloat.leb (g r) (g a) = false).
Proof.
  revert k best. induction n as [|n IH]; intros k best Hbest Hmax Hlow; cbn zeta.
  - cbn [seq map selectHighest]. rewrite Nat.add_0_r. auto.
  - cbn [seq map selectHighest].
    destruct (PrimFloat.ltb (g best) (g k)) eqn:Hlt.
    + replace (k + S n)%nat with (S k + n)%nat by lia.
      apply IH; [lia| |].
      * intros a Ha. destruct (decide (a = k)) as [->|Hne]; [apply ltb_irrefl|].
        destruct (PrimFloat.ltb (g k) (g a)) eqn:Hka; [|reflexivity].
        rewrite <- (Hmax a) by lia. symmetry. eapply ltb_trans; eassumption.
      * intros a Ha.
        destruct (PrimFloat.leb (g k) (g a)) eqn:Hka; [|reflexivity].
        rewrite <- (Hmax a) by lia. symmetry. eapply ltb_leb_trans; eassumption.
    + replace (k + S n)%nat with (S k + n)%nat by lia.
      apply IH; [lia| |assumption].
      intros a Ha. destruct (decide (a = k)) as [->|Hne]; [assumption|].
      apply Hmax. lia.
Qed.

(** Of two doubles that are not NaN, the one that is not at most the other
    is greater. *)
Lemma SFcompare_gt_lt X Y : SFcompare X Y = Some Gt -> SFcompare Y X = Some Lt.
Proof.
  destruct X as [sx|sx| |sx mx ex], Y as [sy|sy| |sy my ey]; cbn [SFcompare];
    try discriminate; try destruct sx; try destruct sy; try discriminate; try reflexivity.
  all: intros H; injection H as H; f_equal; compare_cases.
Qed.

Lemma leb_false_ltb (x y : float) :
  isnan x = false -> isnan y = false ->
  PrimFloat.leb x y = false -> PrimFloat.ltb y x = true.
Proof.
  unfold isnan. rewrite !FloatAxioms.eqb_spec, FloatAxioms.leb_spec, FloatAxioms.ltb_spec.
  unfold SFeqb, SFleb, SFltb. intros Hx Hy H.
  destruct (SFcompare (Prim2SF x) (Prim2SF y)) as [[| |]|] eqn:Hc; try discriminate H.
  - now rewrite (SFcompare_gt_lt _ _ Hc).
  - exfalso. destruct (Prim2SF x), (Prim2SF y); cbn in Hx, Hy, Hc; discriminate.
Qed.

(** Among gains that are not NaN, a candidate that no candidate exceeds and
    that every lower candidate fails to reach is the one the specification's
    words select. *)
Lemma lowestOfMaximalGain_scan (g : nat -> float) (n best : nat) :
  (best < n)%nat ->
  (forall a, (a < n)%nat -> isnan (g a) = false) ->
  (forall a, (a < n)%nat -> PrimFloat.ltb (g best) (g a) = false) ->
  (forall a, (a < best)%nat -> PrimFloat.leb (g best) (g a) = false) ->
  lowestOfMaximalGain (map g (seq 0 n)) = Some best.
Proof.
  intros Hbest Hnan Hmax Hlow. unfold lowestOfMaximalGain.
  assert (Hlookup : forall j y, map g (seq 0 n) !! j = Some y -> (j < n)%nat /\ y = g j).
  { intros j y Hj. change (map g (seq 0 n)) with (g <$> seq 0 n) in Hj.
    rewrite list_lookup_fmap in Hj.
    destruct (seq 0 n !! j) as [k|] eqn:Hk; [|discriminate].
    apply lookup_seq in Hk as [-> Hlt]. cbn in Hj. injection Hj as <-. auto. }
  assert (Hb : map g (seq 0 n) !! best = Some (g best)).
  { change (map g (seq 0 n)) with (g <$> seq 0 n).
    rewrite list_lookup_fmap, lookup_seq_lt by assumption. reflexivity. }
  assert (Hfind : list_find
            (fun gain => Forall (fun other => PrimFloat.ltb gain other = false)
                                (map g (seq 0 n)))
            (map g (seq 0 n)) = Some (best, g best)).
  { apply list_find_Some. split; [exact Hb|]. split.
    - apply Forall_lookup. intros j y Hj. apply Hlookup in Hj as [Hj ->]. now apply Hmax.
    - intros j y Hj Hlt HP. apply Hlookup in Hj as [Hj ->].
      rewrite Forall_lookup in HP. specialize (HP _ _ Hb). cbn in HP.
      rewrite (leb_false_ltb (g best) (g j)) in HP; [discriminate| | |];
        [apply Hnan; lia | apply Hnan; lia | now apply Hlow]. }
  rewrite Hfind. reflexivity.
Qed.

Section BestAttribute.
Variable log2 : float -> float.
Variable iteration : gset string -> list string.

Lemma informationGain_returns (e : Entries) (a : AttributeId) :
  returns (informationGain log2 iteration e a) = true ->
  exists entropy average,
    entropyOfDataset log2 iteration e = Return entropy
    /\ calculateAttributeAverageInformationEntropy log2 iteration e a = Return average
    /\ gainOf log2 iteration e a = PrimFloat.sub entropy average.
Proof.
  unfold gainOf, informationGain.
  destruct (entropyOfDataset log2 iteration e) as [entropy|]; [|discriminate].
  cbn [bind].
  destruct (calculateAttributeAverageInformationEntropy log2 iteration e a)
    as [average|]; [|discriminate].
  cbn [bind]. eauto.
Qed.

End BestAttribute.

Lemma map_constant {A B : Type} (f : A -> B) (v : B) (l : list A) :
  Forall (fun a => f a = v) l -> map f l = repeat v (length l).
Proof.
  induction 1 as [|a l Ha _ IH]; cbn [map length repeat]; [reflexivity|].
  now rewrite Ha, IH.
Qed.



(** ** Further properties of utils.h *)

Local Close Scope Z_scope.
Local Open Scope float_scope.

(** *** Inputs that are not finite *)

Lemma isfinite_false (x : float) :
  isfinite x = false <-> SFnonfinite (Prim2SF x).
Proof.
  unfold isfinite. rewrite FloatAxioms.ltb_spec, abs_spec.
  change (Prim2SF infinity) with (S754_infinity false).
  destruct (Prim2SF x) as [s|s| |s m e]; cbn; intuition congruence.
Qed.

Lemma SFadd_nonfinite_l X Y : SFnonfinite X -> SFnonfinite (SF64add X Y).
Proof.
  destruct X as [s|s| |s m e]; cbn; try contradiction; intros _;
    destruct Y as [t|t| |t n f]; try destruct s; try destruct t; exact I.
Qed.

Lemma SFadd_nonfinite_r X Y : SFnonfinite Y -> SFnonfinite (SF64add X Y).
Proof.
  destruct Y as [t|t| |t n f]; cbn; try contradiction; intros _;
    destruct X as [s|s| |s m e]; try destruct s; try destruct t; exact I.
Qed.

Lemma sum_nonfinite_acc ps acc :
  SFnonfinite (Prim2SF acc) ->
  SFnonfinite (Prim2SF (fold_left (fun sum probability => sum + probability) ps acc)).
Proof.
  revert acc. induction ps as [|p ps IH]; intros acc H; cbn [fold_left]; [exact H|].
  apply IH. rewrite FloatAxioms.add_spec. now apply SFadd_nonfinite_l.
Qed.

Lemma sum_nonfinite_entry ps acc :
  Exists (fun p => isfinite p = false) ps ->
  SFnonfinite (Prim2SF (fold_left (fun sum probability => sum + probability) ps acc)).
Proof.
  intros Hex. revert acc.
  induction Hex as [p ps Hp|p ps _ IH]; intros acc; cbn [fold_left].
  - apply sum_nonfinite_acc. rewrite FloatAxioms.add_spec.
    apply SFadd_nonfinite_r. now apply isfinite_false.
  - apply IH.
Qed.

Lemma nonfinite_not_one (x : float) : SFnonfinite (Prim2SF x) -> x <> 1.
Proof.
  intros H ->. exact H.
Qed.

(** X1. [calculateEntropy] throws [InvalidSumOfProbabilitiesException] on the
    empty vector and on every vector that holds a NaN or an infinity: the sum
    is then 0, NaN or infinite, never 1. *)
Theorem calculateEntropy_rejects_empty_and_nonfinite :
  forall (log2 : float -> float) (probabilities : list float),
    probabilities = [] \/ Exists (fun p => isfinite p = false) probabilities ->
    calculateEntropy log2 probabilities = Throw InvalidSumOfProbabilitiesException.
Proof.
  intros log2 ps H. apply calculateEntropy_rejected.
  destruct H as [-> | Hex]; [discriminate|].
  apply nonfinite_not_one. now apply sum_nonfinite_entry.
Qed.

Lemma calculateEntropy_rejects_empty_and_nonfinite_witness :
  calculateEntropy log2_interpolated [0.5; nan; 0.5] = Throw InvalidSumOfProbabilitiesException
  /\ calculateEntropy log2_interpolated [1; infinity; neg_infinity] = Throw InvalidSumOfProbabilitiesException
  /\ calculateEntropy log2_interpolated [] = Throw InvalidSumOfProbabilitiesException.
Proof.
  split; [|split]; apply calculateEntropy_rejects_empty_and_nonfinite.
  - right. right. left. reflexivity.
  - right. right. left. reflexivity.
  - left. reflexivity.
Defined.

(** *** A single probability *)
Lemma add_zero_l_is_one (p : float) : 0 + p = 1 <-> p = 1.
Proof.
  split; [|now intros ->].
  intros H. apply (f_equal Prim2SF) in H. rewrite FloatAxioms.add_spec in H.
  change (Prim2SF 0) with (S754_zero false) in H.
  apply Prim2SF_inj.
  destruct (Prim2SF p) as [s|s| |s m e]; try destruct s; try discriminate H; exact H.
Qed.

(** X2. A vector of one probability [p] is accepted exactly when [p] is the
    double 1.0, and rejected with [InvalidSumOfProbabilitiesException]
    otherwise. *)
Theorem calculateEntropy_single_probability :
  forall (log2 : float -> float) (p : float),
    (returns (calculateEntropy log2 [p]) = true <-> p = 1)
    /\ (throwsInvalidSumOfProbabilities (calculateEntropy log2 [p]) = true <-> p <> 1).
Proof.
  intros log2 p.
  assert (Hs : sumOfProbabilites [p] = 1 <-> p = 1) by apply add_zero_l_is_one.
  split.
  - rewrite calculateEntropy_returns_iff. exact Hs.
  - split.
    + intros H Hp. apply Hs in Hp. rewrite (calculateEntropy_accepted _ _ Hp) in H. discriminate.
    + intros Hp. rewrite calculateEntropy_rejected; [reflexivity|]. now rewrite Hs.
Qed.

(** *** NaN in the entropy loop *)
Lemma isnan_true (x : float) : isnan x = true -> x = nan.
Proof.
  unfold isnan. rewrite FloatAxioms.eqb_spec. intros H.
  apply Prim2SF_inj. change (Prim2SF nan) with S754_nan.
  destruct (Prim2SF x) as [s|s| |s m e]; try destruct s; try reflexivity;
    cbn in H; try discriminate H.
  all: rewrite Z.compare_refl, Pos.compare_cont_refl in H; discriminate H.
Qed.

Lemma mul_nan_r (x : float) : x * nan = nan.
Proof.
  apply Prim2SF_inj. rewrite FloatAxioms.mul_spec. change (Prim2SF nan) with S754_nan.
  now destruct (Prim2SF x).
Qed.

Lemma mul_nan_l (x : float) : nan * x = nan.
Proof.
  apply Prim2SF_inj. rewrite FloatAxioms.mul_spec. reflexivity.
Qed.

Lemma add_nan_r (x : float) : x + nan = nan.
Proof.
  apply Prim2SF_inj. rewrite FloatAxioms.add_spec. change (Prim2SF nan) with S754_nan.
  now destruct (Prim2SF x).
Qed.

Lemma add_nan_l (x : float) : nan + x = nan.
Proof.
  apply Prim2SF_inj. rewrite FloatAxioms.add_spec. reflexivity.
Qed.

Lemma entropyLoop_nan_term log2 ps e :
  Exists (fun p => p * log2 p = nan) ps -> entropyLoop log2 ps e = nan.
Proof.
  intros Hex. revert e.
  induction Hex as [p ps Hp|p ps _ IH]; intros e; cbn [entropyLoop fold_left].
  - rewrite Hp, sub_nan_r. apply entropyLoop_nan.
  - apply IH.
Qed.

(** X3. [calculateEntropy] checks the sum only, not the range of the
    entries: a vector with a negative entry whose sum is 1 is accepted, and,
    [log2] of a negative number being NaN, the entropy returned is NaN. *)
Theorem calculateEntropy_negative_probability_is_nan :
  forall log2 : float -> float,
    (forall x : float, (x <? 0) = true -> isnan (log2 x) = true) ->
    forall probabilities : list float,
      sumOfProbabilites probabilities = 1 ->
      Exists (fun p => (p <? 0) = true) probabilities ->
      calculateEntropy log2 probabilities = Return nan.
Proof.
  intros log2 Hlog ps Hs Hex. rewrite (calculateEntropy_accepted _ _ Hs). f_equal.
  apply entropyLoop_nan_term.
  eapply Exists_impl; [exact Hex|]. cbn. intros p Hp.
  rewrite (isnan_true _ (Hlog p Hp)). apply mul_nan_r.
Qed.

Lemma ltb_not_eqb (x y : float) : (x <? y) = true -> (x =? y) = false.
Proof.
  rewrite FloatAxioms.ltb_spec, FloatAxioms.eqb_spec. unfold SFltb, SFeqb.
  now destruct (SFcompare (Prim2SF x) (Prim2SF y)) as [[| |]|].
Qed.

Lemma ltb_not_nan (x y : float) : (x <? y) = true -> isnan x = false.
Proof.
  unfold isnan. rewrite FloatAxioms.ltb_spec, FloatAxioms.eqb_spec. intros H.
  destruct (Prim2SF x) as [s|s| |s m e]; try destruct s; try reflexivity;
    cbn in H |- *; try discriminate H.
  all: now rewrite Z.compare_refl, Pos.compare_cont_refl.
Qed.

Lemma log2_interpolated_negative (x : float) :
  (x <? 0) = true -> isnan (log2_interpolated x) = true.
Proof.
  intros H. unfold log2_interpolated.
  rewrite (ltb_not_nan _ _ H), (ltb_not_eqb _ _ H), H. reflexivity.
Qed.

Lemma calculateEntropy_negative_probability_is_nan_witness :
  calculateEntropy log2_interpolated [1.5; -0.5] = Return nan.
Proof.
  apply (calculateEntropy_negative_probability_is_nan
           log2_interpolated log2_interpolated_negative).
  - reflexivity.
  - right. left. reflexivity.
Defined.

(** *** Signs of doubles *)
Lemma ltb_zero_false (x : float) : (x <? 0) = false <-> SFnot_negative (Prim2SF x).
Proof.
  rewrite FloatAxioms.ltb_spec. change (Prim2SF 0) with (S754_zero false).
  destruct (Prim2SF x) as [s|s| |s m e]; try destruct s; cbn; intuition congruence.
Qed.

Lemma zero_ltb_false (x : float) : (0 <? x) = false <-> SFnot_positive (Prim2SF x).
Proof.
  rewrite FloatAxioms.ltb_spec. change (Prim2SF 0) with (S754_zero false).
  destruct (Prim2SF x) as [s|s| |s m e]; try destruct s; cbn; intuition congruence.
Qed.

Lemma binary_round_aux_sign s m e l : SFsign_is s (binary_round_aux prec emax s m e l).
Proof.
  unfold binary_round_aux.
  destruct (shr_fexp prec emax m e l) as [mrs' e'].
  destruct (shr_fexp prec emax _ e' loc_Exact) as [mrs'' e''].
  destruct (shr_m mrs'') as [|p|p]; cbn; try reflexivity.
  now destruct (Z.leb e'' (emax - prec)).
Qed.

Lemma binary_round_sign s m e : SFsign_is s (binary_round prec emax s m e).
Proof.
  unfold binary_round. destruct (shl_align m e _) as [mz ez]. apply binary_round_aux_sign.
Qed.

Lemma SFsign_false_not_negative X : SFsign_is false X -> SFnot_negative X.
Proof. destruct X as [s|s| |s m e]; cbn; intros; subst; exact I. Qed.

Lemma SFsign_true_not_positive X : SFsign_is true X -> SFnot_positive X.
Proof. destruct X as [s|s| |s m e]; cbn; intros; subst; exact I. Qed.

Lemma SFmul_not_positive P L :
  SFnot_negative P -> SFnot_positive L -> SFnot_positive (SF64mul P L).
Proof.
  destruct P as [s|s| |s m e], L as [t|t| |t n f]; try destruct s; try destruct t;
    cbn; try contradiction; try (intros; exact I).
  intros _ _. apply SFsign_true_not_positive, binary_round_aux_sign.
Qed.

Lemma SFsub_not_negative E T :
  SFnot_negative E -> SFnot_positive T -> SFnot_negative (SF64sub E T).
Proof.
  destruct E as [s|s| |s m e], T as [t|t| |t n f]; try destruct s; try destruct t;
    cbn; try contradiction; try (intros; exact I).
  intros _ _. apply SFsign_false_not_negative, binary_round_sign.
Qed.

Lemma entropyLoop_not_negative log2 ps e :
  Forall (fun p => (p <? 0) = false /\ (0 <? log2 p) = false) ps ->
  (e <? 0) = false ->
  (entropyLoop log2 ps e <? 0) = false.
Proof.
  intros Hall. revert e.
  induction Hall as [|p ps [Hp Hl] _ IH]; intros e He; cbn [entropyLoop fold_left]; [exact He|].
  apply IH. apply ltb_zero_false. rewrite FloatAxioms.sub_spec, FloatAxioms.mul_spec.
  apply SFsub_not_negative; [now apply ltb_zero_false|].
  apply SFmul_not_positive; [now apply ltb_zero_false | now apply zero_ltb_false].
Qed.

(** X4. When no probability is negative and [log2] is not positive on the
    probabilities (as on [0, 1]), the entropy that [calculateEntropy] returns
    for an accepted vector is never below 0. *)
Theorem calculateEntropy_never_negative :
  forall (log2 : float -> float) (probabilities : list float),
    Forall (fun p => (p <? 0) = false /\ (0 <? log2 p) = false) probabilities ->
    sumOfProbabilites probabilities = 1 ->
    exists entropy : Entropy,
      calculateEntropy log2 probabilities = Return entropy
      /\ (entropy <? 0) = false.
Proof.
  intros log2 ps Hall Hs. exists (entropyLoop log2 ps 0).
  split; [now apply calculateEntropy_accepted|].
  now apply entropyLoop_not_negative.
Qed.

Lemma calculateEntropy_never_negative_witness :
  exists entropy : Entropy,
    calculateEntropy log2_interpolated [0.5; 0.25; 0.25] = Return entropy
    /\ (entropy <? 0) = false.
Proof.
  apply calculateEntropy_never_negative; [|reflexivity].
  repeat (constructor; [split; reflexivity|]). constructor.
Defined.

(** *** The sign of the average *)
Lemma Prim2SF_int_to_double (n : Z) :
  (0 <= n <= INT_MAX)%Z ->
  Prim2SF (int_to_double n) = binary_normalize prec emax n 0%Z false.
Proof.
  intros Hn. unfold int_to_double.
  assert (H : binary_normalize prec emax n 0%Z false
              = Prim2SF (of_uint63 (Uint63.of_Z n))).
  { rewrite of_uint63_spec, Uint63.of_Z_spec, Z.mod_small; [reflexivity|].
    unfold INT_MAX in Hn. split; [lia|].
    apply Z.le_lt_trans with (2 ^ 31)%Z; [lia|].
    change Uint63.wB with (2 ^ 63)%Z. apply Z.pow_lt_mono_r; lia. }
  rewrite H, SF2Prim_Prim2SF. reflexivity.
Qed.

Lemma int_to_double_sign (n : Z) :
  (0 <= n <= INT_MAX)%Z -> SFsign_is false (Prim2SF (int_to_double n)).
Proof.
  intros Hn. rewrite Prim2SF_int_to_double by assumption.
  destruct n as [|p|p]; [reflexivity | apply binary_round_sign | lia].
Qed.

Lemma SFdiv_sign_false C T :
  SFsign_is false C -> SFsign_is false T -> SFsign_is false (SF64div C T).
Proof.
  destruct C as [s|s| |s m e], T as [t|t| |t n f]; cbn; try (intros; subst; reflexivity).
  intros -> ->. destruct (SFdiv_core_binary prec emax (Z.pos m) e (Z.pos n) f) as [[mz ez] lz].
  apply binary_round_aux_sign.
Qed.

Lemma SFmul_not_negative D E :
  SFsign_is false D -> SFnot_negative E -> SFnot_negative (SF64mul D E).
Proof.
  destruct D as [s|s| |s m e], E as [t|t| |t n f]; try destruct t;
    cbn; try contradiction; try (intros; subst; exact I).
  intros -> _. apply SFsign_false_not_negative, binary_round_aux_sign.
Qed.

Lemma SFadd_not_negative A B :
  SFnot_negative A -> SFnot_negative B -> SFnot_negative (SF64add A B).
Proof.
  destruct A as [s|s| |s m e], B as [t|t| |t n f]; try destruct s; try destruct t;
    cbn; try contradiction; try (intros; exact I).
  intros _ _. apply SFsign_false_not_negative, binary_round_sign.
Qed.

Lemma averageLoop_not_negative total pairs avg :
  (0 < total <= INT_MAX)%Z ->
  Forall (fun p : Count * Entropy =>
            (0 <= fst p <= total)%Z /\ (snd p <? 0) = false) pairs ->
  (avg <? 0) = false ->
  exists r, averageLoop total pairs avg = Return r /\ (r <? 0) = false.
Proof.
  intros Ht Hall. revert avg.
  induction Hall as [|[count entropy] rest [Hc He] _ IH]; intros avg Havg; cbn [averageLoop].
  - eauto.
  - cbn [fst snd] in Hc, He. destruct (Z.gtb_spec count total) as [Hgt|_]; [lia|].
    apply IH. apply ltb_zero_false.
    rewrite FloatAxioms.add_spec, FloatAxioms.mul_spec, FloatAxioms.div_spec.
    apply SFadd_not_negative; [now apply ltb_zero_false|].
    apply SFmul_not_negative; [|now apply ltb_zero_false].
    apply SFdiv_sign_false; apply int_to_double_sign; lia.
Qed.

(** X9. With a total in [1, INT_MAX], every count in [0, total] and no
    entropy below 0, [calculateAverageInformationEntropy] returns, and its
    result is never below 0. *)
Theorem calculateAverageInformationEntropy_never_negative :
  forall (total : Z) (pairs : list (Count * Entropy)),
    (0 < total <= INT_MAX)%Z ->
    Forall (fun p : Count * Entropy =>
              (0 <= fst p <= total)%Z /\ (snd p <? 0) = false) pairs ->
    exists average : Entropy,
      calculateAverageInformationEntropy total pairs = Return average
      /\ (average <? 0) = false.
Proof.
  intros total pairs Ht Hall. now apply averageLoop_not_negative.
Qed.

Lemma calculateAverageInformationEntropy_never_negative_witness :
  exists average : Entropy,
    calculateAverageInformationEntropy 14 [(5%Z, 1); (4%Z, 0); (5%Z, 0.5)] = Return average
    /\ (average <? 0) = false.
Proof.
  apply calculateAverageInformationEntropy_never_negative.
  - unfold INT_MAX. lia.
  - repeat (constructor; [split; [cbn; lia | reflexivity]|]). constructor.
Defined.

(** *** NaN in the average *)
Lemma averageLoop_nan total pairs :
  Forall (fun p : Count * Entropy => (fst p <= total)%Z) pairs ->
  averageLoop total pairs nan = Return nan.
Proof.
  induction 1 as [|[count entropy] rest Hle _ IH]; cbn [averageLoop]; [reflexivity|].
  cbn [fst] in Hle. destruct (Z.gtb_spec count total); [lia|].
  rewrite add_nan_l. exact IH.
Qed.

Lemma averageLoop_nan_term total pairs avg :
  Forall (fun p : Count * Entropy => (fst p <= total)%Z) pairs ->
  Exists (fun p : Count * Entropy =>
            (int_to_double (fst p) / int_to_double total) * snd p = nan) pairs ->
  averageLoop total pairs avg = Return nan.
Proof.
  intros Hall Hex. revert avg.
  induction Hex as [[count entropy] rest Hp|[count entropy] rest _ IH]; intros avg;
    apply Forall_cons in Hall as [Hle Hall]; cbn [fst snd] in *; cbn [averageLoop];
    (destruct (Z.gtb_spec count total); [lia|]).
  - rewrite Hp, add_nan_r. now apply averageLoop_nan.
  - now apply IH.
Qed.

(** X7. A total of 0 is not guarded: when no count is positive and some
    count is 0, [calculateAverageInformationEntropy 0] divides 0 by 0, throws
    nothing and returns NaN. *)
Theorem calculateAverageInformationEntropy_zero_total_is_nan :
  forall pairs : list (Count * Entropy),
    Forall (fun p : Count * Entropy => (fst p <= 0)%Z) pairs ->
    Exists (fun p : Count * Entropy => fst p = 0%Z) pairs ->
    calculateAverageInformationEntropy 0 pairs = Return nan.
Proof.
  intros pairs Hall Hex. apply averageLoop_nan_term; [exact Hall|].
  eapply Exists_impl; [exact Hex|]. intros [count entropy]. cbn [fst snd]. intros ->.
  change (int_to_double 0 / int_to_double 0) with nan. apply mul_nan_l.
Qed.

Lemma calculateAverageInformationEntropy_zero_total_is_nan_witness :
  calculateAverageInformationEntropy 0 [((-3)%Z, 1); (0%Z, 0.5)] = Return nan.
Proof.
  apply calculateAverageInformationEntropy_zero_total_is_nan.
  - repeat constructor; cbn; lia.
  - right. left. reflexivity.
Defined.

(** X8. A NaN entropy in an accepted list makes the result NaN: the NaN
    that [calculateEntropy] returns for one attribute value reaches the
    average of the attribute. *)
Theorem calculateAverageInformationEntropy_nan_entropy_is_nan :
  forall (total : Z) (pairs : list (Count * Entropy)),
    Forall (fun p : Count * Entropy => (fst p <= total)%Z) pairs ->
    Exists (fun p : Count * Entropy => isnan (snd p) = true) pairs ->
    calculateAverageInformationEntropy total pairs = Return nan.
Proof.
  intros total pairs Hall Hex. apply averageLoop_nan_term; [exact Hall|].
  eapply Exists_impl; [exact Hex|]. intros [count entropy]. cbn [fst snd]. intros H.
  rewrite (isnan_true _ H). apply mul_nan_r.
Qed.

Lemma calculateAverageInformationEntropy_nan_entropy_is_nan_witness :
  calculateAverageInformationEntropy 14 [(5%Z, 1); (4%Z, nan); (5%Z, 0.5)] = Return nan.
Proof.
  apply calculateAverageInformationEntropy_nan_entropy_is_nan.
  - repeat constructor; cbn; lia.
  - right. left. reflexivity.
Defined.

(** *** The first count above the total *)
Lemma averageLoopDivisions_accepted_prefix total before rest avg n :
  Forall (fun p : Count * Entropy => (fst p <= total)%Z) before ->
  exists avg',
    averageLoopDivisions total (before ++ rest) avg n
    = averageLoopDivisions total rest avg' (n + length before)%nat.
Proof.
  intros Hall. revert avg n.
  induction Hall as [|[count entropy] before Hle _ IH]; intros avg n.
  - exists avg. cbn [app length]. now rewrite Nat.add_0_r.
  - cbn [fst] in Hle. cbn [app averageLoopDivisions length].
    destruct (Z.gtb_spec count total); [lia|].
    destruct (IH (avg + int_to_double count / int_to_double total * entropy) (S n))
      as [avg' Hrest].
    exists avg'. rewrite Hrest. f_equal. lia.
Qed.

(** X6. [calculateAverageInformationEntropy] stops at the first pair whose
    count is greater than the total: the exception carries that count and the
    total, whatever follows it in the list, and one division has been
    performed for each pair before it. *)
Theorem calculateAverageInformationEntropy_reports_first_excess :
  forall (total count : Z) (entropy : Entropy) (before after : list (Count * Entropy)),
    Forall (fun p : Count * Entropy => (fst p <= total)%Z) before ->
    (total < count)%Z ->
    calculateAverageInformationEntropy total (before ++ (count, entropy) :: after)
    = Throw (InvalidNumberOfEntriesException count total)
    /\ averageLoopDivisions total (before ++ (count, entropy) :: after) 0 0
       = (Throw (InvalidNumberOfEntriesException count total), length before).
Proof.
  intros total count entropy before after Hall Hgt.
  assert (H : averageLoopDivisions total (before ++ (count, entropy) :: after) 0 0
              = (Throw (InvalidNumberOfEntriesException count total), length before)).
  { destruct (averageLoopDivisions_accepted_prefix total before
                ((count, entropy) :: after) 0 0 Hall) as [avg' ->].
    cbn [averageLoopDivisions]. destruct (Z.gtb_spec count total); [reflexivity | lia]. }
  split; [|exact H].
  unfold calculateAverageInformationEntropy.
  rewrite <- (averageLoopDivisions_fst total _ 0 0%nat), H. reflexivity.
Qed.

Lemma calculateAverageInformationEntropy_reports_first_excess_witness :
  calculateAverageInformationEntropy 10 ([(4%Z, 1); (10%Z, 0.5)] ++ (11%Z, 0) :: [(12%Z, 0)])
  = Throw (InvalidNumberOfEntriesException 11 10)
  /\ averageLoopDivisions 10 ([(4%Z, 1); (10%Z, 0.5)] ++ (11%Z, 0) :: [(12%Z, 0)]) 0 0
     = (Throw (InvalidNumberOfEntriesException 11 10), length [(4%Z, 1); (10%Z, 0.5)]).
Proof.
  apply calculateAverageInformationEntropy_reports_first_excess.
  - repeat constructor; cbn; lia.
  - lia.
Defined.

(** *** The order of the probabilities *)
(** X5. Whether [calculateEntropy] accepts a vector depends on the order of
    its entries: double addition rounds, and some vector is accepted while a
    permutation of it is rejected. *)
Theorem calculateEntropy_acceptance_depends_on_order :
  exists ps qs : list float,
    ps ≡ₚ qs
    /\ (forall log2, returns (calculateEntropy log2 ps) = true)
    /\ (forall log2, calculateEntropy log2 qs = Throw InvalidSumOfProbabilitiesException).
Proof.
  exists [0.1; 0.2; 0.3; 0.4], (rev [0.1; 0.2; 0.3; 0.4]).
  split; [apply Permutation_rev|]. split; intros log2; reflexivity.
Qed.
